(** * TensorflowCompute: buffer layout and force exchange

    A shallow embedding of [tensorflow_plugin/TensorflowCompute.h]: the
    [FORCE_MODE] enumeration, the [TensorflowCompute] class with the four
    buffer accessors that the header defines inline, and the operations
    the header only declares.  The bodies of the declared operations live
    in the implementation file of the plugin, not in the header; each is given
    here as the specification describes it and is marked as such.  The
    accessors of the CUDA subclass [TensorflowComputeGPU] are overrides
    without a body in the header and are not covered.

    Machine arithmetic is written out: [unsigned int] expressions wrap at
    2^32, pointer arithmetic wraps at 2^64 and is scaled by the size of
    the pointee, and [reinterpret_cast<int64_t>] reads the 64 address
    bits as a signed integer. *)

From stdpp Require Import base list strings.
From Stdlib Require Import ZArith Lia.

Local Open Scope Z_scope.

(** ** Machine integers and pointers *)

Module Machine.

Definition UINT_MODULUS : Z := 2 ^ 32.
Definition ADDR_MODULUS : Z := 2 ^ 64.

(** The value of an [unsigned int] expression whose mathematical value
    is [z]. *)
Definition uint (z : Z) : Z := z mod UINT_MODULUS.

Definition is_uint (z : Z) : Prop := 0 <= z < UINT_MODULUS.

(** The 64 bits [z mod 2^64] read as an [int64_t]. *)
Definition int64_of_bits (z : Z) : Z :=
  let w := z mod ADDR_MODULUS in
  if w <? 2 ^ 63 then w else w - ADDR_MODULUS.

(** A typed pointer [T*]: its address and [sizeof(T)].  The header uses
    [_input_buffer] and [_output_buffer] without declaring them, so the
    pointee size travels with the pointer value instead of being fixed
    here. *)
Record pointer : Type := mk_pointer { ptr_addr : Z; ptr_sizeof : Z }.

(** [p + n] on a typed pointer. *)
Definition ptr_plus (p : pointer) (n : Z) : pointer :=
  {| ptr_addr := (ptr_addr p + n * ptr_sizeof p) mod ADDR_MODULUS;
     ptr_sizeof := ptr_sizeof p |}.

(** [reinterpret_cast<int64_t>(p)]. *)
Definition reinterpret_cast_int64 (p : pointer) : Z :=
  int64_of_bits (ptr_addr p).

Definition nullptr (size : Z) : pointer :=
  {| ptr_addr := 0; ptr_sizeof := size |}.

End Machine.
Import Machine.

(** ** [enum class FORCE_MODE] *)

Module FORCE_MODE.
Inductive t : Type := overwrite | add | ignore | output.

Definition eqb (a b : t) : bool :=
  match a, b with
  | overwrite, overwrite | add, add | ignore, ignore | output, output => true
  | _, _ => false
  end.
End FORCE_MODE.

(** The two raw buffers the accessors address. *)
Inductive buffer : Type := input_buffer | output_buffer.

Definition buffer_eqb (a b : buffer) : bool :=
  match a, b with
  | input_buffer, input_buffer | output_buffer, output_buffer => true
  | _, _ => false
  end.

(** A run of [seg_len] elements starting at element [seg_start] of a
    buffer. *)
Record segment : Type :=
  mk_segment { seg_buf : buffer; seg_start : Z; seg_len : Z }.

Definition seg_end (s : segment) : Z := seg_start s + seg_len s.

(** Two segments overlap when they lie in the same buffer and share at
    least one element. *)
Definition seg_overlap (a b : segment) : bool :=
  buffer_eqb (seg_buf a) (seg_buf b)
  && (Z.max (seg_start a) (seg_start b) <? Z.min (seg_end a) (seg_end b)).

(** Modelled from the spec: the error taxonomy of section 7; the header
    declares no error type. *)
Inductive Error : Type :=
  | AllocationError | ChannelTimeout | LayoutMismatchError
  | ConfigurationError | RemapError.

(** Modelled from the spec: the states of one exchange (section 4.4) and
    the terminal [Faulted] state, which keeps the error that caused it. *)
Inductive CoordState : Type :=
  | Idle | PositionsSent | NeighborsSent | AwaitingForces
  | ForcesMerged | VirialReceived | Faulted (cause : Error).

(** Results of fallible operations. *)
Inductive Result (A : Type) : Type :=
  | OK (a : A)
  | Err (e : Error).
Arguments OK {A} a.
Arguments Err {A} e.

Definition bind {A B : Type} (r : Result A) (k : A -> Result B) : Result B :=
  match r with
  | OK a => k a
  | Err e => Err e
  end.

Notation "'do' x <- r ; k" := (bind r (fun x => k))
  (at level 10, x name, r at level 100, k at level 200).

Section Compute.

(** HOOMD's [Scalar] ([float] or [double], see [is_double_precision])
    with its addition. *)
Context {Scalar : Type}.
Variable Scalar_add : Scalar -> Scalar -> Scalar.

Record Scalar4 : Type := make_scalar4 { x : Scalar; y : Scalar; z : Scalar; w : Scalar }.

Definition Scalar4_add (a b : Scalar4) : Scalar4 :=
  {| x := Scalar_add (x a) (x b); y := Scalar_add (y a) (y b);
     z := Scalar_add (z a) (z b); w := Scalar_add (w a) (w b) |}.

(** HOOMD's [ParticleData] (hoomd/ParticleData.h, not part of the
    plugin): the particle count [unsigned int getN() const] and the
    positions. *)
Record ParticleData : Type :=
  mk_pdata { getN : Z; getPositions : list Scalar4 }.

(** The collaborators handed to the constructor.  A
    [SystemDefinition] gives access to the particle data; the neighbor
    list and the Python object are opaque handles here. *)
Record SystemDefinition : Type :=
  mk_sysdef { sysdef_handle : Z; getParticleData : ParticleData }.
Record NeighborList : Type := mk_nlist { nlist_handle : Z }.
Record py_object : Type := mk_py_object { py_handle : Z }.

(** The members of [TensorflowCompute].  [m_sysdef], [m_pdata],
    [m_force] and [m_virial] are inherited from [ForceCompute];
    [_input_buffer] and [_output_buffer] are the pointers the inline
    accessors read.  An [IPCArrayComm] and the [GPUArray] are
    represented by the contents of their arrays.  The last four fields
    are not members the header shows: they are the coordinator state,
    buffer capacity, logical size and last logged value that sections 3
    and 4.4 of the specification describe. *)
Record TensorflowCompute : Type := mk_compute {
  _py_self : py_object;
  m_sysdef : SystemDefinition;
  m_pdata : ParticleData;
  m_force : list Scalar4;
  m_virial : list Scalar;
  _m_nlist : NeighborList;
  _r_cut : Scalar;
  _nneighs : Z;
  _force_mode : FORCE_MODE.t;
  m_log_name : string;
  _input_buffer : pointer;
  _output_buffer : pointer;
  _pos_comm : list Scalar4;
  _force_comm : list Scalar4;
  _nlist_array : list Scalar4;
  _nlist_comm : list Scalar4;
  _virial_comm : list Scalar;
  coord_state : CoordState;
  capacity : Z;
  logical_size : Z;
  last_log_value : option Scalar
}.

(** Functional updates of single members. *)

Definition set_m_pdata (v : ParticleData) (t : TensorflowCompute) : TensorflowCompute :=
  mk_compute (_py_self t) (m_sysdef t) v (m_force t) (m_virial t)
    (_m_nlist t) (_r_cut t) (_nneighs t) (_force_mode t) (m_log_name t)
    (_input_buffer t) (_output_buffer t) (_pos_comm t) (_force_comm t)
    (_nlist_array t) (_nlist_comm t) (_virial_comm t) (coord_state t)
    (capacity t) (logical_size t) (last_log_value t).

Definition set_m_force (v : list Scalar4) (t : TensorflowCompute) : TensorflowCompute :=
  mk_compute (_py_self t) (m_sysdef t) (m_pdata t) v (m_virial t)
    (_m_nlist t) (_r_cut t) (_nneighs t) (_force_mode t) (m_log_name t)
    (_input_buffer t) (_output_buffer t) (_pos_comm t) (_force_comm t)
    (_nlist_array t) (_nlist_comm t) (_virial_comm t) (coord_state t)
    (capacity t) (logical_size t) (last_log_value t).

Definition set_m_virial (v : list Scalar) (t : TensorflowCompute) : TensorflowCompute :=
  mk_compute (_py_self t) (m_sysdef t) (m_pdata t) (m_force t) v
    (_m_nlist t) (_r_cut t) (_nneighs t) (_force_mode t) (m_log_name t)
    (_input_buffer t) (_output_buffer t) (_pos_comm t) (_force_comm t)
    (_nlist_array t) (_nlist_comm t) (_virial_comm t) (coord_state t)
    (capacity t) (logical_size t) (last_log_value t).

(** The coordinator that differs from [t] in its mode only.  No member
    function does this; it serves to compare coordinators. *)
Definition with_force_mode (v : FORCE_MODE.t) (t : TensorflowCompute) : TensorflowCompute :=
  mk_compute (_py_self t) (m_sysdef t) (m_pdata t) (m_force t) (m_virial t)
    (_m_nlist t) (_r_cut t) (_nneighs t) v (m_log_name t) (_input_buffer t)
    (_output_buffer t) (_pos_comm t) (_force_comm t) (_nlist_array t)
    (_nlist_comm t) (_virial_comm t) (coord_state t) (capacity t)
    (logical_size t) (last_log_value t).

Definition set_input_buffer (v : pointer) (t : TensorflowCompute) : TensorflowCompute :=
  mk_compute (_py_self t) (m_sysdef t) (m_pdata t) (m_force t) (m_virial t)
    (_m_nlist t) (_r_cut t) (_nneighs t) (_force_mode t) (m_log_name t) v
    (_output_buffer t) (_pos_comm t) (_force_comm t) (_nlist_array t)
    (_nlist_comm t) (_virial_comm t) (coord_state t) (capacity t)
    (logical_size t) (last_log_value t).

Definition set_output_buffer (v : pointer) (t : TensorflowCompute) : TensorflowCompute :=
  mk_compute (_py_self t) (m_sysdef t) (m_pdata t) (m_force t) (m_virial t)
    (_m_nlist t) (_r_cut t) (_nneighs t) (_force_mode t) (m_log_name t)
    (_input_buffer t) v (_pos_comm t) (_force_comm t) (_nlist_array t)
    (_nlist_comm t) (_virial_comm t) (coord_state t) (capacity t)
    (logical_size t) (last_log_value t).

Definition set_pos_comm (v : list Scalar4) (t : TensorflowCompute) : TensorflowCompute :=
  mk_compute (_py_self t) (m_sysdef t) (m_pdata t) (m_force t) (m_virial t)
    (_m_nlist t) (_r_cut t) (_nneighs t) (_force_mode t) (m_log_name t)
    (_input_buffer t) (_output_buffer t) v (_force_comm t) (_nlist_array t)
    (_nlist_comm t) (_virial_comm t) (coord_state t) (capacity t)
    (logical_size t) (last_log_value t).

Definition set_force_comm (v : list Scalar4) (t : TensorflowCompute) : TensorflowCompute :=
  mk_compute (_py_self t) (m_sysdef t) (m_pdata t) (m_force t) (m_virial t)
    (_m_nlist t) (_r_cut t) (_nneighs t) (_force_mode t) (m_log_name t)
    (_input_buffer t) (_output_buffer t) (_pos_comm t) v (_nlist_array t)
    (_nlist_comm t) (_virial_comm t) (coord_state t) (capacity t)
    (logical_size t) (last_log_value t).

Definition set_nlist_array (v : list Scalar4) (t : TensorflowCompute) : TensorflowCompute :=
  mk_compute (_py_self t) (m_sysdef t) (m_pdata t) (m_force t) (m_virial t)
    (_m_nlist t) (_r_cut t) (_nneighs t) (_force_mode t) (m_log_name t)
    (_input_buffer t) (_output_buffer t) (_pos_comm t) (_force_comm t) v
    (_nlist_comm t) (_virial_comm t) (coord_state t) (capacity t)
    (logical_size t) (last_log_value t).

Definition set_nlist_comm (v : list Scalar4) (t : TensorflowCompute) : TensorflowCompute :=
  mk_compute (_py_self t) (m_sysdef t) (m_pdata t) (m_force t) (m_virial t)
    (_m_nlist t) (_r_cut t) (_nneighs t) (_force_mode t) (m_log_name t)
    (_input_buffer t) (_output_buffer t) (_pos_comm t) (_force_comm t)
    (_nlist_array t) v (_virial_comm t) (coord_state t) (capacity t)
    (logical_size t) (last_log_value t).

Definition set_virial_comm (v : list Scalar) (t : TensorflowCompute) : TensorflowCompute :=
  mk_compute (_py_self t) (m_sysdef t) (m_pdata t) (m_force t) (m_virial t)
    (_m_nlist t) (_r_cut t) (_nneighs t) (_force_mode t) (m_log_name t)
    (_input_buffer t) (_output_buffer t) (_pos_comm t) (_force_comm t)
    (_nlist_array t) (_nlist_comm t) v (coord_state t) (capacity t)
    (logical_size t) (last_log_value t).

Definition set_coord_state (v : CoordState) (t : TensorflowCompute) : TensorflowCompute :=
  mk_compute (_py_self t) (m_sysdef t) (m_pdata t) (m_force t) (m_virial t)
    (_m_nlist t) (_r_cut t) (_nneighs t) (_force_mode t) (m_log_name t)
    (_input_buffer t) (_output_buffer t) (_pos_comm t) (_force_comm t)
    (_nlist_array t) (_nlist_comm t) (_virial_comm t) v (capacity t)
    (logical_size t) (last_log_value t).

Definition set_capacity (v : Z) (t : TensorflowCompute) : TensorflowCompute :=
  mk_compute (_py_self t) (m_sysdef t) (m_pdata t) (m_force t) (m_virial t)
    (_m_nlist t) (_r_cut t) (_nneighs t) (_force_mode t) (m_log_name t)
    (_input_buffer t) (_output_buffer t) (_pos_comm t) (_force_comm t)
    (_nlist_array t) (_nlist_comm t) (_virial_comm t) (coord_state t) v
    (logical_size t) (last_log_value t).

Definition set_logical_size (v : Z) (t : TensorflowCompute) : TensorflowCompute :=
  mk_compute (_py_self t) (m_sysdef t) (m_pdata t) (m_force t) (m_virial t)
    (_m_nlist t) (_r_cut t) (_nneighs t) (_force_mode t) (m_log_name t)
    (_input_buffer t) (_output_buffer t) (_pos_comm t) (_force_comm t)
    (_nlist_array t) (_nlist_comm t) (_virial_comm t) (coord_state t)
    (capacity t) v (last_log_value t).

Definition set_last_log_value (v : option Scalar) (t : TensorflowCompute) : TensorflowCompute :=
  mk_compute (_py_self t) (m_sysdef t) (m_pdata t) (m_force t) (m_virial t)
    (_m_nlist t) (_r_cut t) (_nneighs t) (_force_mode t) (m_log_name t)
    (_input_buffer t) (_output_buffer t) (_pos_comm t) (_force_comm t)
    (_nlist_array t) (_nlist_comm t) (_virial_comm t) (coord_state t)
    (capacity t) (logical_size t) v.

(** *** The inline accessors (header lines 63-72) *)

Definition get_forces_buffer (t : TensorflowCompute) : Z :=
  if FORCE_MODE.eqb (_force_mode t) FORCE_MODE.output
  then reinterpret_cast_int64
         (ptr_plus (_output_buffer t)
                   (uint (getN (m_pdata t) * uint (1 + _nneighs t))))
  else reinterpret_cast_int64 (_input_buffer t).

Definition get_positions_buffer (t : TensorflowCompute) : Z :=
  reinterpret_cast_int64 (_output_buffer t).

Definition get_virial_buffer (t : TensorflowCompute) : Z :=
  reinterpret_cast_int64 (ptr_plus (_input_buffer t) (getN (m_pdata t))).

Definition get_nlist_buffer (t : TensorflowCompute) : Z :=
  reinterpret_cast_int64 (ptr_plus (_output_buffer t) (getN (m_pdata t))).

(** [is_double_precision]: [SINGLE_PRECISION] is a build-time macro. *)
Definition is_double_precision (SINGLE_PRECISION : bool) : bool :=
  negb SINGLE_PRECISION.

(** *** Layout read off the accessors *)

Definition buffer_base (t : TensorflowCompute) (b : buffer) : pointer :=
  match b with
  | input_buffer => _input_buffer t
  | output_buffer => _output_buffer t
  end.

(** The [int64_t] address of element [i] of buffer [b]. *)
Definition element_address (t : TensorflowCompute) (b : buffer) (i : Z) : Z :=
  reinterpret_cast_int64 (ptr_plus (buffer_base t b) i).

Inductive kind : Type := Positions | Neighbors | Forces | Virial.

(** The buffer and element offset at which each accessor exposes its
    array, read off the accessor's body: the pointer it starts from and
    the integer expression it adds.  [accessor_baseOffset] below shows
    that each accessor returns the address of exactly this element. *)
Definition baseOffset (k : kind) (t : TensorflowCompute) : buffer * Z :=
  match k with
  | Positions => (output_buffer, 0)
  | Neighbors => (output_buffer, getN (m_pdata t))
  | Forces =>
      if FORCE_MODE.eqb (_force_mode t) FORCE_MODE.output
      then (output_buffer, uint (getN (m_pdata t) * uint (1 + _nneighs t)))
      else (input_buffer, 0)
  | Virial => (input_buffer, getN (m_pdata t))
  end.

Definition accessor (k : kind) : TensorflowCompute -> Z :=
  match k with
  | Positions => get_positions_buffer
  | Neighbors => get_nlist_buffer
  | Forces => get_forces_buffer
  | Virial => get_virial_buffer
  end.

(** The particle count and neighbor count are [unsigned int]s. *)
Definition wf (t : TensorflowCompute) : Prop :=
  is_uint (getN (m_pdata t)) /\ is_uint (_nneighs t).

(** Modelled from the spec: the extent of each exposed array, which the
    header leaves to the missing implementation file.  Section 3 gives
    N position records, N*K neighbor entries, N force records and N
    virial records; the starting element is the one the accessor
    uses. *)
Definition exposed_segment (k : kind) (t : TensorflowCompute) : segment :=
  let n := getN (m_pdata t) in
  {| seg_buf := fst (baseOffset k t);
     seg_start := snd (baseOffset k t);
     seg_len := match k with
                | Neighbors => n * _nneighs t
                | Positions | Forces | Virial => n
                end |}.

(** The number of elements the packed position/neighbor layout needs. *)
Definition required_capacity (t : TensorflowCompute) : Z :=
  getN (m_pdata t) * (1 + _nneighs t).

(** ** Operations declared in the header, defined elsewhere *)

(** What the other side of the exchange supplies to one call: the
    mapping a transport establishes (or its failure), and the array a
    peer has written to a channel (or its silence until the
    deadline). *)
Definition mapping : Type := option (pointer * pointer).

(** The name of the logged quantity, the value reported when nothing
    is known for a name, and the diagnostic computed from the external
    forces: all three belong to the missing implementation file. *)
Variable log_name : string.
Variable log_sentinel : Scalar.
Variable log_quantity : list Scalar4 -> Scalar.

(** Modelled from the spec: the constructor, whose body is not in the
    header.  Buffers are created at construction, sized to the particle
    count known then; the mode and K are fixed here. *)
Definition construct (py_self : py_object) (sysdef : SystemDefinition)
    (nlist : NeighborList) (r_cut : Scalar) (nneighs : Z)
    (force_mode : FORCE_MODE.t) (bufs : pointer * pointer) : TensorflowCompute :=
  let pd := getParticleData sysdef in
  {| _py_self := py_self; m_sysdef := sysdef; m_pdata := pd;
     m_force := []; m_virial := [];
     _m_nlist := nlist; _r_cut := r_cut; _nneighs := nneighs;
     _force_mode := force_mode; m_log_name := log_name;
     _input_buffer := fst bufs; _output_buffer := snd bufs;
     _pos_comm := []; _force_comm := []; _nlist_array := [];
     _nlist_comm := []; _virial_comm := [];
     coord_state := Idle;
     capacity := getN pd * (1 + nneighs);
     logical_size := getN pd;
     last_log_value := None |}.

(** Modelled from the spec: [ArrayChannel.send], copying the source
    view into the channel's buffer. *)
Definition send {A : Type} (sourceView : list A) : list A := sourceView.

(** Modelled from the spec: [ArrayChannel.receive], which yields the
    peer's data or fails with [ChannelTimeout] at the deadline. *)
Definition receive {A : Type} (peer : option (list A)) : Result (list A) :=
  match peer with
  | Some data => OK data
  | None => Err ChannelTimeout
  end.

(** Modelled from the spec: [ForceMergePolicy.apply] of section 4.3.
    A particle-count mismatch between the two arrays is a
    [LayoutMismatchError], never a truncation. *)
Definition apply (mode : FORCE_MODE.t) (internalForces externalForces : list Scalar4)
    (virial : list Scalar) : Result (list Scalar4) :=
  match mode with
  | FORCE_MODE.overwrite =>
      if Nat.eqb (length internalForces) (length externalForces)
      then OK externalForces
      else Err LayoutMismatchError
  | FORCE_MODE.add =>
      if Nat.eqb (length internalForces) (length externalForces)
      then OK (zip_with Scalar4_add internalForces externalForces)
      else Err LayoutMismatchError
  | FORCE_MODE.ignore => OK internalForces
  | FORCE_MODE.output => OK internalForces
  end.

(** Modelled from the spec: [sendPositions], declared in the header
    without a body. *)
Definition sendPositions (t : TensorflowCompute) : TensorflowCompute :=
  set_pos_comm (send (getPositions (m_pdata t))) t.

(** Modelled from the spec: [sendNeighbors], declared without a body. *)
Definition sendNeighbors (t : TensorflowCompute) : TensorflowCompute :=
  set_nlist_comm (send (_nlist_array t)) t.

(** Modelled from the spec: [sendForces], declared without a body.  In
    [output] mode the force channel is filled from the current
    positions. *)
Definition sendForces (t : TensorflowCompute) : TensorflowCompute :=
  set_force_comm (send (getPositions (m_pdata t))) t.

(** Modelled from the spec: [overwriteForces], declared without a
    body. *)
Definition overwriteForces (peer : option (list Scalar4)) (t : TensorflowCompute)
    : Result TensorflowCompute :=
  do ext <- receive peer;
  do merged <- apply FORCE_MODE.overwrite (m_force t) ext (m_virial t);
  OK (set_m_force merged (set_force_comm ext t)).

(** Modelled from the spec: [addForces], declared without a body. *)
Definition addForces (peer : option (list Scalar4)) (t : TensorflowCompute)
    : Result TensorflowCompute :=
  do ext <- receive peer;
  do merged <- apply FORCE_MODE.add (m_force t) ext (m_virial t);
  OK (set_m_force merged (set_force_comm ext t)).

(** Modelled from the spec: the [ignore] policy, which drains the
    channel and leaves the forces alone. *)
Definition drainForces (peer : option (list Scalar4)) (t : TensorflowCompute)
    : Result TensorflowCompute :=
  do ext <- receive peer;
  do merged <- apply FORCE_MODE.ignore (m_force t) ext (m_virial t);
  OK (set_m_force merged (set_force_comm ext t)).

(** Modelled from the spec: [receiveVirial], declared without a body. *)
Definition receiveVirial (peer : option (list Scalar)) (t : TensorflowCompute)
    : Result TensorflowCompute :=
  do v <- receive peer;
  OK (set_m_virial v (set_virial_comm v t)).

(** Modelled from the spec: [ipcmmap], declared without a body. *)
Definition ipcmmap (m : mapping) (t : TensorflowCompute) : Result TensorflowCompute :=
  match m with
  | Some (inp, outp) => OK (set_input_buffer inp (set_output_buffer outp t))
  | None => Err AllocationError
  end.

(** Modelled from the spec: [ipcmunmap], declared without a body. *)
Definition ipcmunmap (t : TensorflowCompute) : TensorflowCompute :=
  set_input_buffer (nullptr (ptr_sizeof (_input_buffer t)))
    (set_output_buffer (nullptr (ptr_sizeof (_output_buffer t))) t).

(** Modelled from the spec: [reallocate], declared without a body.  It
    fails with [AllocationError] when no new mapping can be established;
    otherwise the new regions replace the old ones, the capacity never
    shrinks, and afterwards it covers N*(1+K) elements. *)
Definition reallocate (m : mapping) (t : TensorflowCompute) : Result TensorflowCompute :=
  do t1 <- ipcmmap m t;
  OK (set_logical_size (getN (m_pdata t))
        (set_capacity (Z.max (capacity t) (required_capacity t)) t1)).

(** Modelled from the spec: [getLogValue], declared without a body: a
    read accessor returning the last known value of the named
    diagnostic, or a sentinel. *)
Definition getLogValue (quantity : string) (timestep : Z) (t : TensorflowCompute)
    : Scalar * TensorflowCompute :=
  (if String.eqb quantity (m_log_name t)
   then default log_sentinel (last_log_value t)
   else log_sentinel,
   t).

(** What the environment supplies to one timestep: the transport's
    answer should a reallocation be needed, and the peer's answers on the
    force and virial channels. *)
Record StepEnv : Type := mk_env {
  env_mapping : mapping;
  env_forces : option (list Scalar4);
  env_virial : option (list Scalar)
}.

(** Modelled from the spec: the transition to [Faulted]. *)
Definition fault (e : Error) (t : TensorflowCompute) : TensorflowCompute :=
  set_coord_state (Faulted e) t.

(** Modelled from the spec: the outcome of a fallible call on [t]
    (section 7).  An allocation failure is surfaced and leaves the
    coordinator as it was; any other failure faults it. *)
Definition settle (t : TensorflowCompute) (r : Result TensorflowCompute)
    : TensorflowCompute * option Error :=
  match r with
  | OK t' => (t', None)
  | Err AllocationError => (t, Some AllocationError)
  | Err e => (fault e t, Some e)
  end.

(** Modelled from the spec: the receiving half of a step (section 4.4):
    await the forces, merge them with [merge], then receive the virial
    and return to [Idle]. *)
Definition await_and_merge
    (merge : option (list Scalar4) -> TensorflowCompute -> Result TensorflowCompute)
    (env : StepEnv) (t : TensorflowCompute) : TensorflowCompute * option Error :=
  let t3 := set_coord_state AwaitingForces t in
  match merge (env_forces env) t3 with
  | Err e => settle t3 (Err e)
  | OK t4 =>
      let t5 := set_coord_state ForcesMerged
                  (set_last_log_value (Some (log_quantity (_force_comm t4))) t4) in
      match receiveVirial (env_virial env) t5 with
      | Err e => settle t5 (Err e)
      | OK t6 => (set_coord_state Idle (set_coord_state VirialReceived t6), None)
      end
  end.

(** Modelled from the spec: one exchange over buffers that are in place
    (section 4.4): send the positions, send the neighbor list, then
    follow the mode.  [output] mode has no feedback: it sends on the
    force channel and returns to [Idle] at once. *)
Definition exchange (env : StepEnv) (t : TensorflowCompute)
    : TensorflowCompute * option Error :=
  let t1 := set_coord_state PositionsSent (sendPositions t) in
  let t2 := set_coord_state NeighborsSent (sendNeighbors t1) in
  match _force_mode t2 with
  | FORCE_MODE.output => (set_coord_state Idle (sendForces t2), None)
  | FORCE_MODE.overwrite => await_and_merge overwriteForces env t2
  | FORCE_MODE.add => await_and_merge addForces env t2
  | FORCE_MODE.ignore => await_and_merge drainForces env t2
  end.

(** Modelled from the spec: the buffers for the current particle count,
    reallocated when the count changed since the last step. *)
Definition resize (m : mapping) (t : TensorflowCompute) : Result TensorflowCompute :=
  if getN (m_pdata t) =? logical_size t then OK t else reallocate m t.

(** Modelled from the spec: [computeForces], declared without a body.  A
    faulted coordinator fails at once; a changed particle count
    reallocates first; then one exchange takes place. *)
Definition computeForces (timestep : Z) (env : StepEnv) (t : TensorflowCompute)
    : TensorflowCompute * option Error :=
  match coord_state t with
  | Faulted e => (t, Some e)
  | _ =>
      match resize (env_mapping env) t with
      | Err e => settle t (Err e)
      | OK t0 => exchange env t0
      end
  end.

(** *** Sequences of calls *)

(** The calls that can reach a coordinator after construction: the
    public and protected member functions the header declares (with what
    the environment answers to each), and the simulation engine updating
    the particle data, forces and neighbor table it shares with the
    coordinator. *)
Inductive op : Type :=
| call_getLogValue (quantity : string) (timestep : Z)
| call_accessor (k : kind)
| call_get_array (k : kind)
| call_is_double_precision
| call_computeForces (timestep : Z) (env : StepEnv)
| call_reallocate (m : mapping)
| call_sendPositions
| call_sendNeighbors
| call_sendForces
| call_overwriteForces (peer : option (list Scalar4))
| call_addForces (peer : option (list Scalar4))
| call_receiveVirial (peer : option (list Scalar))
| call_ipcmmap (m : mapping)
| call_ipcmunmap
| engine_update (pd : ParticleData) (forces nlist : list Scalar4).

(** The coordinator after one call.  The [const] member functions leave
    it as it is. *)
Definition run_op (o : op) (t : TensorflowCompute) : TensorflowCompute :=
  match o with
  | call_getLogValue quantity timestep => snd (getLogValue quantity timestep t)
  | call_accessor _ | call_get_array _ | call_is_double_precision => t
  | call_computeForces timestep env => fst (computeForces timestep env t)
  | call_reallocate m => fst (settle t (reallocate m t))
  | call_sendPositions => sendPositions t
  | call_sendNeighbors => sendNeighbors t
  | call_sendForces => sendForces t
  | call_overwriteForces peer => fst (settle t (overwriteForces peer t))
  | call_addForces peer => fst (settle t (addForces peer t))
  | call_receiveVirial peer => fst (settle t (receiveVirial peer t))
  | call_ipcmmap m => fst (settle t (ipcmmap m t))
  | call_ipcmunmap => ipcmunmap t
  | engine_update pd forces nlist =>
      set_m_pdata pd (set_m_force forces (set_nlist_array nlist t))
  end.

Fixpoint run (ops : list op) (t : TensorflowCompute) : TensorflowCompute :=
  match ops with
  | [] => t
  | o :: rest => run rest (run_op o t)
  end.

End Compute.

Arguments Scalar4 : clear implicits.
Arguments ParticleData : clear implicits.
Arguments SystemDefinition : clear implicits.
Arguments TensorflowCompute : clear implicits.
Arguments StepEnv : clear implicits.
Arguments op : clear implicits.

(** ** Claims as the specification words them *)

Section SpecReadings.

Context {Scalar : Type}.

(** [addr] is the address of some element of segment [s]. *)
Definition points_into (addr : Z) (t : TensorflowCompute Scalar) (s : segment) : Prop :=
  exists i, seg_start s <= i < seg_end s /\ addr = element_address t (seg_buf s) i.

(** Modelled from the spec: the "position echo" of section 3, elements
    [N, N*(1+K)) of buffer [b]. *)
Definition position_echo_segment (b : buffer) (t : TensorflowCompute Scalar) : segment :=
  {| seg_buf := b;
     seg_start := getN (m_pdata t);
     seg_len := getN (m_pdata t) * _nneighs t |}.

(** Modelled from the spec: where the specification places the address
    of the forces channel.  In [output] mode it points at the position
    echo held in the force (input) buffer, in every other mode at
    element 0 of the input buffer. *)
Definition forces_buffer_as_specified (t : TensorflowCompute Scalar) : Prop :=
  match _force_mode t with
  | FORCE_MODE.output =>
      points_into (get_forces_buffer t) t (position_echo_segment input_buffer t)
  | _ => get_forces_buffer t = element_address t input_buffer 0
  end.


(** [t'] differs from [t] at most in what an exchange writes: the force
    and virial arrays, the channel contents, the state and the logged
    value. *)
Definition same_setup (t t' : TensorflowCompute Scalar) : Prop :=
  _py_self t' = _py_self t
  /\ m_sysdef t' = m_sysdef t
  /\ m_pdata t' = m_pdata t
  /\ _m_nlist t' = _m_nlist t
  /\ _r_cut t' = _r_cut t
  /\ _nneighs t' = _nneighs t
  /\ _force_mode t' = _force_mode t
  /\ m_log_name t' = m_log_name t
  /\ _input_buffer t' = _input_buffer t
  /\ _output_buffer t' = _output_buffer t
  /\ _nlist_array t' = _nlist_array t
  /\ capacity t' = capacity t
  /\ logical_size t' = logical_size t.



(** The configuration handed to the constructor is the same in [t] and
    [t']. *)
Definition same_config (t t' : TensorflowCompute Scalar) : Prop :=
  _py_self t' = _py_self t
  /\ m_sysdef t' = m_sysdef t
  /\ _m_nlist t' = _m_nlist t
  /\ _r_cut t' = _r_cut t
  /\ _nneighs t' = _nneighs t
  /\ _force_mode t' = _force_mode t
  /\ m_log_name t' = m_log_name t.

End SpecReadings.

(** ** Concrete coordinators, with [Scalar := Z] *)

Module Samples.

Definition zero4 : Scalar4 Z := make_scalar4 0 0 0 0.

Definition particles (n : Z) : ParticleData Z :=
  mk_pdata n (replicate (Z.to_nat n) zero4).

(** A freshly constructed coordinator for [n] particles and [k]
    neighbors, with 16-byte records in both buffers. *)
Definition fresh (n k : Z) (mode : FORCE_MODE.t) : TensorflowCompute Z :=
  construct "tensorflow" (mk_py_object 1) (mk_sysdef 2 (particles n)) (mk_nlist 3)
    1 k mode (mk_pointer 4096 16, mk_pointer 1048576 16).

Definition small_output : TensorflowCompute Z := fresh 2 3 FORCE_MODE.output.
Definition small_add : TensorflowCompute Z := fresh 2 3 FORCE_MODE.add.

(** Two particles with internal forces, and the forces an external
    process sends back for them. *)
Definition internal2 : list (Scalar4 Z) :=
  [make_scalar4 1 2 3 4; make_scalar4 5 6 7 8].
Definition external2 : list (Scalar4 Z) :=
  [make_scalar4 10 20 30 40; make_scalar4 (-5) (-6) (-7) 0].

(** K = UINT_MAX: the [unsigned int] sum 1 + K is 0. *)
Definition wrapping_output : TensorflowCompute Z :=
  fresh 2 4294967295 FORCE_MODE.output.

(** N = 2^16 particles and K = 2^16 - 1 neighbors: N * (1 + K) = 2^32. *)
Definition product_wrapping_output : TensorflowCompute Z :=
  fresh 65536 65535 FORCE_MODE.output.

(** A coordinator on which the engine has stored two internal forces. *)
Definition engine_loaded (mode : FORCE_MODE.t) : TensorflowCompute Z :=
  run_op Z.add 0 (fun _ => 0)
    (engine_update (particles 2) internal2 [zero4; zero4; zero4; zero4; zero4; zero4])
    (fresh 2 3 mode).

Definition answers : StepEnv Z :=
  {| env_mapping := None; env_forces := Some external2; env_virial := Some [0; 0] |}.

Definition short_answers : StepEnv Z :=
  {| env_mapping := None; env_forces := Some [zero4]; env_virial := Some [0; 0] |}.

End Samples.

(** ** Machine arithmetic *)

Section MachineFacts.

Lemma int64_of_bits_mod (a : Z) :
  int64_of_bits (a mod ADDR_MODULUS) = int64_of_bits a.
Proof.
  unfold int64_of_bits. cbv zeta. now rewrite Z.mod_mod.
Qed.

Lemma int64_of_bits_small (a : Z) :
  - 2 ^ 63 <= a < 2 ^ 63 -> int64_of_bits a = a.
Proof.
  intros Ha. unfold int64_of_bits, ADDR_MODULUS. cbv zeta.
  destruct (Z_lt_le_dec a 0) as [Hneg | Hpos].
  - replace (a mod 2 ^ 64) with (a + 2 ^ 64)
      by (apply Z.mod_unique with (q := -1); lia).
    destruct (Z.ltb_spec (a + 2 ^ 64) (2 ^ 63)); lia.
  - rewrite Z.mod_small by lia.
    destruct (Z.ltb_spec a (2 ^ 63)); lia.
Qed.

(** The signed reading differs from the bits by a multiple of 2^64. *)
Lemma int64_of_bits_congr (a : Z) :
  int64_of_bits a mod ADDR_MODULUS = a mod ADDR_MODULUS.
Proof.
  unfold int64_of_bits, ADDR_MODULUS. cbv zeta.
  destruct (Z.ltb_spec (a mod 2 ^ 64) (2 ^ 63)).
  - now rewrite Z.mod_mod.
  - rewrite Zminus_mod, Z.mod_same, Z.sub_0_r, !Z.mod_mod by lia. reflexivity.
Qed.

Lemma int64_of_bits_ext (a b : Z) :
  a mod ADDR_MODULUS = b mod ADDR_MODULUS -> int64_of_bits a = int64_of_bits b.
Proof. intros H. unfold int64_of_bits. cbv zeta. now rewrite H. Qed.

(** Advancing an [int64_t] address by [d] bytes, in 64-bit arithmetic. *)
Lemma int64_of_bits_advance (a d : Z) :
  int64_of_bits (int64_of_bits a + d) = int64_of_bits (a + d).
Proof.
  apply int64_of_bits_ext.
  rewrite Zplus_mod, int64_of_bits_congr, <- Zplus_mod. reflexivity.
Qed.

Lemma reinterpret_ptr_plus (p : pointer) (n : Z) :
  reinterpret_cast_int64 (ptr_plus p n)
  = int64_of_bits (ptr_addr p + n * ptr_sizeof p).
Proof. unfold reinterpret_cast_int64, ptr_plus; simpl. apply int64_of_bits_mod. Qed.

Lemma reinterpret_ptr_plus_0 (p : pointer) :
  reinterpret_cast_int64 (ptr_plus p 0) = reinterpret_cast_int64 p.
Proof. rewrite reinterpret_ptr_plus, Z.mul_0_l, Z.add_0_r. reflexivity. Qed.

Lemma uint_small (a : Z) : is_uint a -> uint a = a.
Proof. unfold is_uint, uint. intros H. now apply Z.mod_small. Qed.

(** Without wrap-around the offset expression of [get_forces_buffer] is
    the mathematical N * (1 + K). *)
Lemma uint_offset_exact (n k : Z) :
  is_uint n -> is_uint k -> n * (1 + k) < UINT_MODULUS ->
  uint (n * uint (1 + k)) = n * (1 + k).
Proof.
  unfold is_uint, UINT_MODULUS. intros Hn Hk Hfit.
  destruct (Z.eq_dec n 0) as [-> | Hn0].
  - unfold uint. now rewrite !Z.mul_0_l.
  - assert (1 + k < 2 ^ 32) by nia.
    rewrite (uint_small (1 + k)) by (unfold is_uint, UINT_MODULUS; lia).
    apply uint_small. unfold is_uint, UINT_MODULUS. nia.
Qed.

End MachineFacts.

(** ** The buffer layout *)

Section LayoutFacts.

Context {Scalar : Type}.
Implicit Types (t : TensorflowCompute Scalar) (k : kind) (b : buffer).

Lemma element_address_unfold t b (i : Z) :
  element_address t b i
  = int64_of_bits (ptr_addr (buffer_base t b) + i * ptr_sizeof (buffer_base t b)).
Proof. unfold element_address. apply reinterpret_ptr_plus. Qed.

(** Each accessor returns the address of the element [baseOffset]
    names. *)
Lemma accessor_baseOffset k t :
  accessor k t = element_address t (fst (baseOffset k t)) (snd (baseOffset k t)).
Proof.
  destruct k; simpl; unfold element_address; simpl.
  - unfold get_positions_buffer. now rewrite reinterpret_ptr_plus_0.
  - reflexivity.
  - unfold get_forces_buffer.
    destruct (FORCE_MODE.eqb (_force_mode t) FORCE_MODE.output); simpl.
    + reflexivity.
    + now rewrite reinterpret_ptr_plus_0.
  - reflexivity.
Qed.

(** The offset expression of [get_forces_buffer] is N * (1 + K) reduced
    modulo 2^32. *)
Lemma forces_offset_mod t :
  uint (getN (m_pdata t) * uint (1 + _nneighs t)) = uint (required_capacity t).
Proof.
  unfold uint, required_capacity, UINT_MODULUS.
  now rewrite Z.mul_mod_idemp_r by lia.
Qed.

Lemma neighbors_end t :
  seg_end (exposed_segment Neighbors t) = required_capacity t.
Proof. unfold seg_end, exposed_segment, required_capacity; simpl. ring. Qed.

Lemma seg_overlap_false (s1 s2 : segment) :
  seg_buf s1 <> seg_buf s2 \/ seg_end s1 <= seg_start s2 \/ seg_end s2 <= seg_start s1
  \/ seg_len s1 <= 0 \/ seg_len s2 <= 0 ->
  seg_overlap s1 s2 = false.
Proof.
  unfold seg_overlap, seg_end. intros H.
  destruct (buffer_eqb (seg_buf s1) (seg_buf s2)) eqn:Hb; simpl; [| reflexivity].
  apply Z.ltb_ge.
  destruct H as [H | H].
  - destruct (seg_buf s1), (seg_buf s2); simpl in Hb; congruence.
  - lia.
Qed.







End LayoutFacts.

Section LayoutClaims.

Context {Scalar : Type}.
Implicit Types (t : TensorflowCompute Scalar) (k : kind) (b : buffer).

(** C1 (as the code has it): in [output] mode [get_forces_buffer]
    returns the address of element (N * (1 + K)) mod 2^32 of the output
    buffer, which without wrap-around is the first element past the
    neighbor segment [N, N*(1+K)) of that buffer; in every other mode
    it returns the address of element 0 of the input buffer. *)
Theorem get_forces_buffer_location t :
  match _force_mode t with
  | FORCE_MODE.output =>
      baseOffset Forces t = (output_buffer, uint (required_capacity t))
      /\ get_forces_buffer t
         = element_address t output_buffer (uint (required_capacity t))
      /\ (wf t -> required_capacity t < UINT_MODULUS ->
          get_forces_buffer t
          = element_address t output_buffer (seg_end (exposed_segment Neighbors t)))
  | _ =>
      baseOffset Forces t = (input_buffer, 0)
      /\ get_forces_buffer t = element_address t input_buffer 0
      /\ get_forces_buffer t = reinterpret_cast_int64 (_input_buffer t)
  end.
Proof.
  pose proof (accessor_baseOffset Forces t) as Hacc.
  simpl in Hacc. unfold baseOffset, get_forces_buffer in *.
  rewrite forces_offset_mod in *.
  destruct (_force_mode t) eqn:Hmode; simpl in *.
  1-3: split; [ reflexivity | split; [ exact Hacc | reflexivity ] ].
  split; [ reflexivity | split; [ exact Hacc | ] ].
  intros [Hn Hk] Hfit.
  rewrite neighbors_end, uint_small; [ reflexivity | ].
  unfold is_uint, required_capacity, UINT_MODULUS in *. nia.
Qed.


(** C3: in every mode the virial address is the input buffer's base
    address advanced by N elements, and the virial offset within the
    input buffer is N; where the force segment starts at the input
    buffer's base (every mode but [output]) that is N elements past the
    address [get_forces_buffer] returns. *)
Theorem get_virial_buffer_offset t (m : FORCE_MODE.t) :
  let t' := with_force_mode m t in
  baseOffset Virial t' = (input_buffer, getN (m_pdata t))
  /\ get_virial_buffer t'
     = int64_of_bits (reinterpret_cast_int64 (_input_buffer t)
                      + getN (m_pdata t) * ptr_sizeof (_input_buffer t))
  /\ (m <> FORCE_MODE.output ->
      get_virial_buffer t'
      = int64_of_bits (get_forces_buffer t'
                       + getN (m_pdata t) * ptr_sizeof (_input_buffer t)))
  /\ (0 <= ptr_addr (_input_buffer t) ->
      0 <= getN (m_pdata t) * ptr_sizeof (_input_buffer t) ->
      ptr_addr (_input_buffer t)
        + getN (m_pdata t) * ptr_sizeof (_input_buffer t) < 2 ^ 63 ->
      get_virial_buffer t'
      = ptr_addr (_input_buffer t)
        + getN (m_pdata t) * ptr_sizeof (_input_buffer t)).
Proof.
  cbv zeta.
  assert (Hv : get_virial_buffer (with_force_mode m t)
               = int64_of_bits (ptr_addr (_input_buffer t)
                                + getN (m_pdata t) * ptr_sizeof (_input_buffer t))).
  { unfold get_virial_buffer; simpl. apply reinterpret_ptr_plus. }
  split; [ reflexivity | ].
  split; [ | split ].
  - rewrite Hv. unfold reinterpret_cast_int64.
    now rewrite int64_of_bits_advance.
  - intros Hm. rewrite Hv. unfold get_forces_buffer; simpl.
    destruct m; try congruence; simpl;
      unfold reinterpret_cast_int64; now rewrite int64_of_bits_advance.
  - intros H0 H1 H2. rewrite Hv. apply int64_of_bits_small. lia.
Qed.

(** C4: the neighbor table is exposed in the same buffer as the
    positions, N records past the position base, so that buffer holds
    the position segment [0, N) followed directly by the neighbor
    segment [N, N*(1+K)). *)
Theorem get_nlist_buffer_offset t :
  fst (baseOffset Neighbors t) = fst (baseOffset Positions t)
  /\ snd (baseOffset Neighbors t) = snd (baseOffset Positions t) + getN (m_pdata t)
  /\ get_nlist_buffer t
     = int64_of_bits (get_positions_buffer t
                      + getN (m_pdata t) * ptr_sizeof (_output_buffer t))
  /\ exposed_segment Positions t = mk_segment output_buffer 0 (getN (m_pdata t))
  /\ exposed_segment Neighbors t
     = mk_segment output_buffer (getN (m_pdata t)) (getN (m_pdata t) * _nneighs t)
  /\ seg_start (exposed_segment Neighbors t) = seg_end (exposed_segment Positions t)
  /\ seg_end (exposed_segment Neighbors t) = getN (m_pdata t) * (1 + _nneighs t)
  /\ seg_overlap (exposed_segment Positions t) (exposed_segment Neighbors t) = false.
Proof.
  repeat split.
  - unfold get_nlist_buffer, get_positions_buffer, reinterpret_cast_int64.
    rewrite int64_of_bits_advance. apply reinterpret_ptr_plus.
  - unfold seg_end; simpl. ring.
  - apply seg_overlap_false. right. left. unfold seg_end; simpl. lia.
Qed.

End LayoutClaims.

(** C9: the addresses (and offsets) of the position, neighbor and virial
    channels are the same whatever the mode of an otherwise identical
    coordinator, while the address of the force channel does change with
    the mode. *)
Theorem buffers_independent_of_mode :
  (forall (Scalar : Type) (t : TensorflowCompute Scalar) (m : FORCE_MODE.t),
      get_positions_buffer (with_force_mode m t) = get_positions_buffer t
      /\ get_nlist_buffer (with_force_mode m t) = get_nlist_buffer t
      /\ get_virial_buffer (with_force_mode m t) = get_virial_buffer t
      /\ (forall k, k <> Forces ->
          baseOffset k (with_force_mode m t) = baseOffset k t
          /\ accessor k (with_force_mode m t) = accessor k t))
  /\ (exists (t : TensorflowCompute Z) (m1 m2 : FORCE_MODE.t),
         get_forces_buffer (with_force_mode m1 t)
         <> get_forces_buffer (with_force_mode m2 t)).
Proof.
  split.
  - intros Scalar t m. repeat split; try reflexivity;
      destruct k; try reflexivity; congruence.
  - exists Samples.small_add, FORCE_MODE.output, FORCE_MODE.add.
    vm_compute. discriminate.
Qed.

(** ** The layout claims on concrete coordinators *)

Lemma fresh_wf (n k : Z) (mode : FORCE_MODE.t) :
  is_uint n -> is_uint k -> wf (Samples.fresh n k mode).
Proof. intros Hn Hk. split; assumption. Qed.

Lemma is_uint_dec (a : Z) : (0 <=? a) && (a <? UINT_MODULUS) = true -> is_uint a.
Proof. unfold is_uint. intros H. apply andb_true_iff in H. lia. Qed.

(** The four addresses for N = 2, K = 3, 16-byte records, the input
    buffer at 4096 and the output buffer at 1048576. *)
Example accessors_small_output :
  get_positions_buffer Samples.small_output = 1048576
  /\ get_nlist_buffer Samples.small_output = 1048576 + 2 * 16
  /\ get_forces_buffer Samples.small_output = 1048576 + 2 * (1 + 3) * 16
  /\ get_virial_buffer Samples.small_output = 4096 + 2 * 16.
Proof. vm_compute. repeat split. Qed.

Example accessors_small_add :
  get_positions_buffer Samples.small_add = 1048576
  /\ get_nlist_buffer Samples.small_add = 1048576 + 2 * 16
  /\ get_forces_buffer Samples.small_add = 4096
  /\ get_virial_buffer Samples.small_add = 4096 + 2 * 16.
Proof. vm_compute. repeat split. Qed.

(** With N = 2, K = 3 and [output] mode the forces address is element 8
    of the output buffer, one past the neighbor segment [2, 8). *)
Lemma get_forces_buffer_location_witness :
  wf Samples.small_output
  /\ required_capacity Samples.small_output < UINT_MODULUS
  /\ get_forces_buffer Samples.small_output
     = element_address Samples.small_output output_buffer
         (seg_end (exposed_segment Neighbors Samples.small_output)).
Proof.
  assert (Hwf : wf Samples.small_output)
    by (apply fresh_wf; apply is_uint_dec; reflexivity).
  assert (Hfit : required_capacity Samples.small_output < UINT_MODULUS)
    by reflexivity.
  destruct (get_forces_buffer_location Samples.small_output) as (_ & _ & H).
  exact (conj Hwf (conj Hfit (H Hwf Hfit))).
Defined.


(** C1, as stated, fails: for N = 2, K = 3 in [output] mode the address
    returned by [get_forces_buffer] is the address of no element in
    [N, N*(1+K)) = [2, 8) of the force (input) buffer, nor of any element
    in that range of the output buffer. *)
Lemma forces_buffer_outside_position_echo :
  _force_mode Samples.small_output = FORCE_MODE.output
  /\ (forall b : buffer,
        ~ points_into (get_forces_buffer Samples.small_output)
            Samples.small_output (position_echo_segment b Samples.small_output))
  /\ ~ forces_buffer_as_specified Samples.small_output.
Proof.
  assert (Hout : forall b : buffer,
             ~ points_into (get_forces_buffer Samples.small_output)
                 Samples.small_output
                 (position_echo_segment b Samples.small_output)).
  { intros b (i & Hrange & Haddr).
    change (get_forces_buffer Samples.small_output) with 1048704 in Haddr.
    unfold seg_end, position_echo_segment in Hrange; simpl in Hrange.
    rewrite element_address_unfold in Haddr.
    destruct b; simpl in Haddr;
      rewrite int64_of_bits_small in Haddr by lia; lia. }
  split; [ reflexivity | ]. split; [ exact Hout | ].
  exact (Hout input_buffer).
Qed.


(** The product N * (1 + K) wraps as well: N = 2^16 and K = 2^16 - 1 give
    offset 0. *)
Lemma layout_overlaps_on_product_wrap :
  required_capacity Samples.product_wrapping_output = UINT_MODULUS
  /\ baseOffset Forces Samples.product_wrapping_output = (output_buffer, 0)
  /\ seg_overlap (exposed_segment Forces Samples.product_wrapping_output)
       (exposed_segment Positions Samples.product_wrapping_output) = true.
Proof. split; [ | split ]; vm_compute; reflexivity. Qed.

(** ** The exchange: merging forces, logging, and what calls preserve *)

Section ExchangeClaims.

Context {Scalar : Type}.
Variable Scalar_add : Scalar -> Scalar -> Scalar.
Variable log_name : string.
Variable log_sentinel : Scalar.
Variable log_quantity : list (Scalar4 Scalar) -> Scalar.

Implicit Types (t : TensorflowCompute Scalar) (o : op Scalar).

Local Abbreviation run_op := (run_op Scalar_add log_sentinel log_quantity).
Local Abbreviation run := (run Scalar_add log_sentinel log_quantity).
Local Abbreviation construct := (construct log_name).

Lemma same_config_refl t : same_config t t.
Proof. repeat split. Qed.

Lemma same_config_trans t1 t2 t3 :
  same_config t1 t2 -> same_config t2 t3 -> same_config t1 t3.
Proof. unfold same_config. intuition congruence. Qed.

Lemma same_setup_trans t1 t2 t3 :
  same_setup t1 t2 -> same_setup t2 t3 -> same_setup t1 t3.
Proof. unfold same_setup. intuition congruence. Qed.

Lemma same_setup_config t t' : same_setup t t' -> same_config t t'.
Proof. unfold same_setup, same_config. tauto. Qed.

Lemma settle_same_setup t r :
  (forall t', r = OK t' -> same_setup t t') ->
  same_setup t (fst (settle t r)).
Proof.
  intros H. destruct r as [t' | e]; simpl.
  - now apply H.
  - destruct e; repeat split.
Qed.

Lemma merge_same_setup (mode : FORCE_MODE.t) (peer : option (list (Scalar4 Scalar))) t t' :
  match mode with
  | FORCE_MODE.overwrite => overwriteForces Scalar_add peer t
  | FORCE_MODE.add => addForces Scalar_add peer t
  | _ => drainForces Scalar_add peer t
  end = OK t' ->
  same_setup t t'.
Proof.
  unfold overwriteForces, addForces, drainForces, receive, apply, bind.
  destruct mode, peer as [ext |]; simpl;
    try destruct (Nat.eqb _ _); intros H; inversion H; repeat split.
Qed.

Lemma receiveVirial_same_setup (peer : option (list Scalar)) t t' :
  receiveVirial peer t = OK t' -> same_setup t t'.
Proof.
  unfold receiveVirial, receive, bind.
  destruct peer; intros H; inversion H; repeat split.
Qed.

Lemma ipcmmap_same_config (m : mapping) t t' :
  ipcmmap m t = OK t' -> same_config t t'.
Proof.
  destruct m as [[inp outp] |]; simpl; intros H; inversion H; repeat split.
Qed.

Lemma reallocate_same_config (m : mapping) t t' :
  reallocate m t = OK t' -> same_config t t'.
Proof.
  destruct m as [[inp outp] |]; simpl; intros H; inversion H; repeat split.
Qed.

Lemma resize_same_config (m : mapping) t t' :
  resize m t = OK t' -> same_config t t'.
Proof.
  unfold resize. destruct (getN (m_pdata t) =? logical_size t).
  - intros [= <-]. apply same_config_refl.
  - apply reallocate_same_config.
Qed.

Lemma await_and_merge_same_setup
    (merge : option (list (Scalar4 Scalar)) -> TensorflowCompute Scalar
             -> Result (TensorflowCompute Scalar))
    (env : StepEnv Scalar) t :
  (forall peer t1 t2, merge peer t1 = OK t2 -> same_setup t1 t2) ->
  same_setup t (fst (await_and_merge log_quantity merge env t)).
Proof.
  intros Hmerge. unfold await_and_merge.
  set (t3 := set_coord_state AwaitingForces t).
  assert (H3 : same_setup t t3) by (repeat split).
  eapply same_setup_trans; [ exact H3 | ].
  destruct (merge (env_forces env) t3) as [t4 | e] eqn:Hm.
  - apply Hmerge in Hm.
    set (t5 := set_coord_state ForcesMerged _).
    assert (H5 : same_setup t4 t5) by (repeat split).
    eapply same_setup_trans; [ exact Hm | ].
    destruct (receiveVirial (env_virial env) t5) as [t6 | e] eqn:Hvir.
    + apply receiveVirial_same_setup in Hvir.
      eapply same_setup_trans; [ exact H5 | ].
      eapply same_setup_trans; [ exact Hvir | ].
      repeat split.
    + eapply same_setup_trans; [ exact H5 | ].
      apply settle_same_setup. discriminate.
  - apply settle_same_setup. discriminate.
Qed.

(** An exchange writes nothing but the arrays it exchanges. *)
Lemma exchange_same_setup (env : StepEnv Scalar) t :
  same_setup t (fst (exchange Scalar_add log_quantity env t)).
Proof.
  unfold exchange.
  set (t2 := set_coord_state NeighborsSent _).
  assert (H2 : same_setup t t2) by (repeat split).
  eapply same_setup_trans; [ exact H2 | ].
  destruct (_force_mode t2).
  - apply await_and_merge_same_setup. intros peer t1 t'.
    apply (merge_same_setup FORCE_MODE.overwrite).
  - apply await_and_merge_same_setup. intros peer t1 t'.
    apply (merge_same_setup FORCE_MODE.add).
  - apply await_and_merge_same_setup. intros peer t1 t'.
    apply (merge_same_setup FORCE_MODE.ignore).
  - repeat split.
Qed.

Lemma computeForces_same_config (timestep : Z) (env : StepEnv Scalar) t :
  same_config t (fst (computeForces Scalar_add log_quantity timestep env t)).
Proof.
  unfold computeForces.
  destruct (resize (env_mapping env) t) as [t0 | e] eqn:Hre.
  - apply resize_same_config in Hre.
    destruct (coord_state t); try apply same_config_refl;
      (eapply same_config_trans;
       [ exact Hre | apply same_setup_config, exchange_same_setup ]).
  - destruct (coord_state t); try apply same_config_refl;
      apply same_setup_config, settle_same_setup; discriminate.
Qed.

Lemma settle_same_config t r :
  (forall t', r = OK t' -> same_config t t') ->
  same_config t (fst (settle t r)).
Proof.
  intros H. destruct r as [t' | e]; simpl.
  - now apply H.
  - destruct e; repeat split.
Qed.

(** No call changes the configuration handed to the constructor. *)
Lemma run_op_same_config o t : same_config t (run_op o t).
Proof.
  destruct o; simpl; try (repeat split; fail).
  - apply computeForces_same_config.
  - apply settle_same_config, reallocate_same_config.
  - apply same_setup_config, settle_same_setup. intros t'.
    apply (merge_same_setup FORCE_MODE.overwrite).
  - apply same_setup_config, settle_same_setup. intros t'.
    apply (merge_same_setup FORCE_MODE.add).
  - apply same_setup_config, settle_same_setup, receiveVirial_same_setup.
  - apply settle_same_config, ipcmmap_same_config.
Qed.

Lemma run_same_config (ops : list (op Scalar)) t : same_config t (run ops t).
Proof.
  revert t. induction ops as [| o ops IH]; intros t; simpl.
  - apply same_config_refl.
  - eapply same_config_trans; [ apply run_op_same_config | apply IH ].
Qed.

(** C5: in [add] mode, when the internal and external force arrays have
    the same length N, [addForces] succeeds and leaves a merged array of
    length N with merged[i] = internal[i] + external[i] at every index
    i in [0, N): each of the four components of merged[i] is the sum of
    that component of internal[i] and of external[i]. *)
Theorem addForces_elementwise t (external : list (Scalar4 Scalar)) :
  length (m_force t) = length external ->
  exists t',
    addForces Scalar_add (Some external) t = OK t'
    /\ length (m_force t') = length external
    /\ (forall i : nat,
          (i < length external)%nat ->
          exists a b merged,
            m_force t !! i = Some a
            /\ external !! i = Some b
            /\ m_force t' !! i = Some merged
            /\ x merged = Scalar_add (x a) (x b)
            /\ y merged = Scalar_add (y a) (y b)
            /\ z merged = Scalar_add (z a) (z b)
            /\ w merged = Scalar_add (w a) (w b)).
Proof.
  intros Hlen. unfold addForces, receive, bind, apply.
  rewrite Hlen, Nat.eqb_refl.
  eexists. split; [ reflexivity | ]. simpl. split.
  - rewrite length_zip_with_l_eq; assumption.
  - intros i Hi.
    destruct (lookup_lt_is_Some_2 (m_force t) i ltac:(lia)) as [a Ha].
    destruct (lookup_lt_is_Some_2 external i Hi) as [b Hb].
    exists a, b, (Scalar4_add Scalar_add a b).
    rewrite lookup_zip_with, Ha, Hb. repeat split.
Qed.

(** C6: in [overwrite] mode, when the internal and external force arrays
    have the same length, [overwriteForces] succeeds and the merged array
    is the external one, index by index, whatever the internal forces
    were. *)
Theorem overwriteForces_replaces t (external : list (Scalar4 Scalar)) :
  length (m_force t) = length external ->
  exists t',
    overwriteForces Scalar_add (Some external) t = OK t'
    /\ m_force t' = external
    /\ (forall i : nat, m_force t' !! i = external !! i)
    /\ (forall internal' : list (Scalar4 Scalar),
          length internal' = length external ->
          exists t'',
            overwriteForces Scalar_add (Some external) (set_m_force internal' t) = OK t''
            /\ m_force t'' = m_force t').
Proof.
  intros Hlen. unfold overwriteForces, receive, bind, apply.
  rewrite Hlen, Nat.eqb_refl.
  eexists. split; [ reflexivity | ]. simpl.
  split; [ reflexivity | ]. split; [ reflexivity | ].
  intros internal' Hlen'. rewrite Hlen', Nat.eqb_refl.
  eexists. split; reflexivity.
Qed.

(** C7: [getLogValue] returns the coordinator exactly as it found it, for
    every quantity name and timestep and in every state, [Faulted]
    included; the value it reports is the last known one or the
    sentinel. *)
Theorem getLogValue_leaves_state (quantity : string) (timestep : Z) t :
  snd (getLogValue log_sentinel quantity timestep t) = t
  /\ run_op (call_getLogValue quantity timestep) t = t
  /\ (forall e : Error,
        coord_state t = Faulted e ->
        coord_state (snd (getLogValue log_sentinel quantity timestep t)) = Faulted e)
  /\ (fst (getLogValue log_sentinel quantity timestep t) = log_sentinel
      \/ last_log_value t = Some (fst (getLogValue log_sentinel quantity timestep t))).
Proof.
  repeat split; try (intros; assumption).
  unfold getLogValue; simpl.
  destruct (String.eqb quantity (m_log_name t)); [ | now left ].
  destruct (last_log_value t); [ now right | now left ].
Qed.

(** C8: the mode a coordinator was constructed with is the mode it has
    after any sequence of calls; no single call changes [_force_mode]. *)
Theorem force_mode_fixed_at_construction
    (py_self : py_object) (sysdef : SystemDefinition Scalar) (nlist : NeighborList)
    (r_cut : Scalar) (nneighs : Z) (force_mode : FORCE_MODE.t)
    (bufs : pointer * pointer) (ops : list (op Scalar)) :
  _force_mode (construct py_self sysdef nlist r_cut nneighs force_mode bufs) = force_mode
  /\ _force_mode
       (run ops (construct py_self sysdef nlist r_cut nneighs force_mode bufs))
     = force_mode
  /\ (forall o t, _force_mode (run_op o t) = _force_mode t).
Proof.
  split; [ reflexivity | ]. split.
  - pose proof (run_same_config ops
                  (construct py_self sysdef nlist r_cut nneighs force_mode bufs)) as H.
    unfold same_config in H. simpl in H. tauto.
  - intros o t. pose proof (run_op_same_config o t) as H.
    unfold same_config in H. tauto.
Qed.

End ExchangeClaims.

(** ** The exchange on concrete coordinators *)

(** The virial address 16 * N bytes past the input buffer at 4096. *)
Lemma get_virial_buffer_offset_witness :
  get_virial_buffer (with_force_mode FORCE_MODE.output Samples.small_add) = 4096 + 2 * 16
  /\ get_virial_buffer (with_force_mode FORCE_MODE.add Samples.small_add)
     = int64_of_bits
         (get_forces_buffer (with_force_mode FORCE_MODE.add Samples.small_add) + 2 * 16).
Proof.
  split.
  - destruct (get_virial_buffer_offset Samples.small_add FORCE_MODE.output)
      as (_ & _ & _ & H).
    apply H; vm_compute; congruence.
  - destruct (get_virial_buffer_offset Samples.small_add FORCE_MODE.add)
      as (_ & _ & H & _).
    apply H. discriminate.
Defined.

(** Adding [external2] onto [internal2]: (1,2,3,4) + (10,20,30,40) and
    (5,6,7,8) + (-5,-6,-7,0). *)
Lemma addForces_elementwise_witness :
  length (m_force (Samples.engine_loaded FORCE_MODE.add)) = length Samples.external2
  /\ exists t',
       addForces Z.add (Some Samples.external2) (Samples.engine_loaded FORCE_MODE.add)
       = OK t'
       /\ length (m_force t') = 2%nat
       /\ m_force t' !! 0%nat = Some (make_scalar4 11 22 33 44)
       /\ m_force t' !! 1%nat = Some (make_scalar4 0 0 0 8).
Proof.
  split; [ reflexivity | ].
  destruct (addForces_elementwise Z.add (Samples.engine_loaded FORCE_MODE.add)
              Samples.external2 eq_refl) as (t' & Hrun & Hlen & Hidx).
  exists t'. split; [ exact Hrun | ]. split; [ exact Hlen | ].
  split.
  - destruct (Hidx 0%nat ltac:(simpl; lia))
      as (a & b & m & Ha & Hb & Hm & Hx & Hy & Hz & Hw).
    injection Ha as <-. injection Hb as <-.
    destruct m as [mx my mz mw]. simpl in Hx, Hy, Hz, Hw. subst. exact Hm.
  - destruct (Hidx 1%nat ltac:(simpl; lia))
      as (a & b & m & Ha & Hb & Hm & Hx & Hy & Hz & Hw).
    injection Ha as <-. injection Hb as <-.
    destruct m as [mx my mz mw]. simpl in Hx, Hy, Hz, Hw. subst. exact Hm.
Defined.

Example addForces_sample :
  match addForces Z.add (Some Samples.external2) (Samples.engine_loaded FORCE_MODE.add) with
  | OK t' => m_force t' = [make_scalar4 11 22 33 44; make_scalar4 0 0 0 8]
  | Err _ => False
  end.
Proof. reflexivity. Qed.

(** Overwriting [internal2] with [external2]. *)
Lemma overwriteForces_replaces_witness :
  length (m_force (Samples.engine_loaded FORCE_MODE.overwrite))
  = length Samples.external2
  /\ exists t',
       overwriteForces Z.add (Some Samples.external2)
         (Samples.engine_loaded FORCE_MODE.overwrite) = OK t'
       /\ m_force t' = Samples.external2.
Proof.
  split; [ reflexivity | ].
  destruct (overwriteForces_replaces Z.add (Samples.engine_loaded FORCE_MODE.overwrite)
              Samples.external2 eq_refl) as (t' & Hrun & Hforce & _).
  exists t'. split; assumption.
Defined.

(** A length mismatch is an error, not a truncation. *)
Example addForces_mismatch :
  addForces Z.add (Some [Samples.zero4]) (Samples.engine_loaded FORCE_MODE.add)
  = Err LayoutMismatchError.
Proof. reflexivity. Qed.

(** One whole step in [add] mode ends in [Idle] with the summed forces; a
    short answer from the peer faults the coordinator, and the next step
    fails at once and leaves it untouched. *)
Example computeForces_add_step :
  let r := computeForces Z.add (fun _ => 0) 0 Samples.answers
             (Samples.engine_loaded FORCE_MODE.add) in
  snd r = None
  /\ coord_state (fst r) = Idle
  /\ m_force (fst r) = [make_scalar4 11 22 33 44; make_scalar4 0 0 0 8].
Proof. repeat split. Qed.

Example computeForces_mismatch_faults :
  let r := computeForces Z.add (fun _ => 0) 0 Samples.short_answers
             (Samples.engine_loaded FORCE_MODE.add) in
  snd r = Some LayoutMismatchError
  /\ coord_state (fst r) = Faulted LayoutMismatchError
  /\ computeForces Z.add (fun _ => 0) 1 Samples.answers (fst r)
     = (fst r, Some LayoutMismatchError)
  /\ snd (getLogValue 0 "tensorflow" 1 (fst r)) = fst r.
Proof. vm_compute. repeat split. Qed.

(** ** Further properties of the inline accessors *)

Section AddressFacts.

(** The signed reading is the address up to a multiple of 2^64. *)
Lemma int64_of_bits_decomp (a : Z) :
  exists q : Z, int64_of_bits a = a + q * ADDR_MODULUS.
Proof.
  unfold int64_of_bits, ADDR_MODULUS. cbv zeta.
  pose proof (Z.div_mod a (2 ^ 64) ltac:(lia)) as Hdm.
  destruct (Z.ltb_spec (a mod 2 ^ 64) (2 ^ 63)).
  - exists (- (a / 2 ^ 64)). lia.
  - exists (- (a / 2 ^ 64) - 1). lia.
Qed.

Lemma int64_of_bits_bounds (a : Z) :
  - 2 ^ 63 <= int64_of_bits a < 2 ^ 63.
Proof.
  unfold int64_of_bits, ADDR_MODULUS. cbv zeta.
  pose proof (Z.mod_pos_bound a (2 ^ 64) ltac:(lia)) as Hb.
  destruct (Z.ltb_spec (a mod 2 ^ 64) (2 ^ 63)); lia.
Qed.

Lemma int64_of_bits_negative (a : Z) :
  int64_of_bits a < 0 <-> 2 ^ 63 <= a mod ADDR_MODULUS.
Proof.
  unfold int64_of_bits, ADDR_MODULUS. cbv zeta.
  pose proof (Z.mod_pos_bound a (2 ^ 64) ltac:(lia)) as Hb.
  destruct (Z.ltb_spec (a mod 2 ^ 64) (2 ^ 63)); lia.
Qed.

(** The distance between an address and the address [d] bytes further,
    both read as [int64_t], is [d] modulo 2^64. *)
Lemma address_distance (a d : Z) :
  (int64_of_bits (a + d) - int64_of_bits a) mod ADDR_MODULUS = d mod ADDR_MODULUS.
Proof.
  destruct (int64_of_bits_decomp (a + d)) as [q1 ->].
  destruct (int64_of_bits_decomp a) as [q2 ->].
  replace (a + d + q1 * ADDR_MODULUS - (a + q2 * ADDR_MODULUS))
    with (d + (q1 - q2) * ADDR_MODULUS) by ring.
  apply Z.mod_add. unfold ADDR_MODULUS. lia.
Qed.

Lemma uint_product_small (n s : Z) :
  is_uint n -> 0 < s <= UINT_MODULUS -> 0 <= n * s < ADDR_MODULUS.
Proof.
  unfold is_uint, UINT_MODULUS, ADDR_MODULUS. intros Hn Hs.
  change (2 ^ 64) with (2 ^ 32 * 2 ^ 32). nia.
Qed.

End AddressFacts.

Section AccessorProperties.

Context {Scalar : Type}.
Implicit Types (t : TensorflowCompute Scalar) (k : kind) (b : buffer).

(** X1: every accessor returns an address aligned to the element size of
    its buffer, provided that size divides 2^64 (a power of two) and the
    buffer's base is aligned to it. *)
Theorem accessor_aligned k t :
  let p := buffer_base t (fst (baseOffset k t)) in
  Z.divide (ptr_sizeof p) ADDR_MODULUS ->
  Z.divide (ptr_sizeof p) (ptr_addr p) ->
  Z.divide (ptr_sizeof p) (accessor k t).
Proof.
  cbv zeta. intros Hmod Hbase.
  rewrite accessor_baseOffset, element_address_unfold.
  destruct (int64_of_bits_decomp
              (ptr_addr (buffer_base t (fst (baseOffset k t)))
               + snd (baseOffset k t)
                 * ptr_sizeof (buffer_base t (fst (baseOffset k t))))) as [q ->].
  repeat apply Z.divide_add_r.
  - exact Hbase.
  - apply Z.divide_factor_r.
  - now apply Z.divide_mul_r.
Qed.

(** X2: mapping the two buffers at other addresses (with the same element
    sizes) leaves every element offset as it was and moves each returned
    address by the displacement of its buffer. *)
Theorem accessor_remapped k t (inp outp : pointer) :
  ptr_sizeof inp = ptr_sizeof (_input_buffer t) ->
  ptr_sizeof outp = ptr_sizeof (_output_buffer t) ->
  let t' := set_input_buffer inp (set_output_buffer outp t) in
  baseOffset k t' = baseOffset k t
  /\ accessor k t'
     = int64_of_bits
         (accessor k t
          + (ptr_addr (buffer_base t' (fst (baseOffset k t)))
             - ptr_addr (buffer_base t (fst (baseOffset k t))))).
Proof.
  intros Hin Hout. cbv zeta.
  assert (Hoff : baseOffset k (set_input_buffer inp (set_output_buffer outp t))
                 = baseOffset k t) by (destruct k; reflexivity).
  split; [ exact Hoff | ].
  rewrite !accessor_baseOffset, Hoff, !element_address_unfold, int64_of_bits_advance.
  apply int64_of_bits_ext. f_equal.
  destruct (fst (baseOffset k t)); simpl; rewrite ?Hin, ?Hout; ring.
Qed.

(** X3: with no particles the neighbor address is the position address
    and the virial address is the input buffer's base; the forces
    address is the position address in [output] mode, whatever K is, and
    the virial address in every other mode. *)
Theorem accessors_without_particles t :
  getN (m_pdata t) = 0 ->
  get_nlist_buffer t = get_positions_buffer t
  /\ get_virial_buffer t = reinterpret_cast_int64 (_input_buffer t)
  /\ get_forces_buffer t
     = match _force_mode t with
       | FORCE_MODE.output => get_positions_buffer t
       | _ => get_virial_buffer t
       end.
Proof.
  intros Hn.
  unfold get_nlist_buffer, get_virial_buffer, get_forces_buffer, get_positions_buffer.
  rewrite Hn, Z.mul_0_l. change (uint 0) with 0.
  rewrite !reinterpret_ptr_plus_0.
  destruct (_force_mode t); simpl; repeat split.
Qed.

(** X4: with K = 0 the forces address of [output] mode is the neighbor
    address: the neighbor segment is empty and the forces follow the
    positions directly. *)
Theorem forces_follow_positions_without_neighbors t :
  is_uint (getN (m_pdata t)) ->
  _nneighs t = 0 ->
  _force_mode t = FORCE_MODE.output ->
  get_forces_buffer t = get_nlist_buffer t.
Proof.
  intros Hn Hk Hmode. unfold get_forces_buffer, get_nlist_buffer.
  rewrite Hmode, Hk; simpl.
  change (uint (1 + 0)) with 1. now rewrite Z.mul_1_r, uint_small.
Qed.

(** X5: whenever N * (1 + K) is a multiple of 2^32 (K = UINT_MAX, or
    N = 2^16 with K = 2^16 - 1) the forces address of [output] mode is the
    position address. *)
Theorem forces_alias_positions_on_wrap t :
  _force_mode t = FORCE_MODE.output ->
  required_capacity t mod UINT_MODULUS = 0 ->
  get_forces_buffer t = get_positions_buffer t.
Proof.
  intros Hmode Hwrap. unfold get_forces_buffer, get_positions_buffer.
  rewrite Hmode; simpl. rewrite forces_offset_mod.
  unfold uint. rewrite Hwrap. apply reinterpret_ptr_plus_0.
Qed.

(** X6: the particle count can be read back from the addresses: for an
    element size between 1 and 2^32, the distance from the position
    address to the neighbor address, taken modulo 2^64 and divided by
    the element size, is N; so is the distance from the forces address
    to the virial address in every mode but [output]. *)
Theorem particle_count_from_addresses t :
  is_uint (getN (m_pdata t)) ->
  (0 < ptr_sizeof (_output_buffer t) <= UINT_MODULUS ->
   ((get_nlist_buffer t - get_positions_buffer t) mod ADDR_MODULUS)
     / ptr_sizeof (_output_buffer t) = getN (m_pdata t))
  /\ (0 < ptr_sizeof (_input_buffer t) <= UINT_MODULUS ->
      _force_mode t <> FORCE_MODE.output ->
      ((get_virial_buffer t - get_forces_buffer t) mod ADDR_MODULUS)
        / ptr_sizeof (_input_buffer t) = getN (m_pdata t)).
Proof.
  intros Hn. split.
  - intros Hs. unfold get_nlist_buffer, get_positions_buffer.
    rewrite reinterpret_ptr_plus. unfold reinterpret_cast_int64.
    rewrite address_distance, Z.mod_small by (now apply uint_product_small).
    apply Z.div_mul. lia.
  - intros Hs Hmode. unfold get_virial_buffer, get_forces_buffer.
    destruct (_force_mode t); try congruence; simpl;
      rewrite reinterpret_ptr_plus; unfold reinterpret_cast_int64;
      rewrite address_distance, Z.mod_small by (now apply uint_product_small);
      apply Z.div_mul; lia.
Qed.

(** X7: in [output] mode, when N * (1 + K) does not wrap and the region
    of N * (1 + K) elements from the output buffer's base lies in the
    lower half of the address space, the three output addresses are
    exact and ordered: positions at the base, neighbors N elements
    further, forces N * (1 + K) elements further. *)
Theorem output_addresses_exact_and_ordered t :
  wf t ->
  _force_mode t = FORCE_MODE.output ->
  required_capacity t < UINT_MODULUS ->
  0 <= ptr_addr (_output_buffer t) ->
  0 < ptr_sizeof (_output_buffer t) ->
  ptr_addr (_output_buffer t)
    + required_capacity t * ptr_sizeof (_output_buffer t) < 2 ^ 63 ->
  get_positions_buffer t = ptr_addr (_output_buffer t)
  /\ get_nlist_buffer t
     = ptr_addr (_output_buffer t) + getN (m_pdata t) * ptr_sizeof (_output_buffer t)
  /\ get_forces_buffer t
     = ptr_addr (_output_buffer t)
       + required_capacity t * ptr_sizeof (_output_buffer t)
  /\ get_positions_buffer t <= get_nlist_buffer t <= get_forces_buffer t.
Proof.
  intros [Hn Hk] Hmode Hfit Hbase Hsize Htop.
  pose proof (uint_offset_exact _ _ Hn Hk Hfit) as Hoff.
  unfold is_uint, UINT_MODULUS, required_capacity in *.
  assert (Hnk : 0 <= getN (m_pdata t) * _nneighs t) by nia.
  assert (Hns : 0 <= getN (m_pdata t) * ptr_sizeof (_output_buffer t)) by nia.
  assert (Hnks : 0 <= getN (m_pdata t) * _nneighs t * ptr_sizeof (_output_buffer t))
    by nia.
  assert (Hp : get_positions_buffer t = ptr_addr (_output_buffer t)).
  { unfold get_positions_buffer, reinterpret_cast_int64.
    apply int64_of_bits_small. nia. }
  assert (Hl : get_nlist_buffer t
               = ptr_addr (_output_buffer t)
                 + getN (m_pdata t) * ptr_sizeof (_output_buffer t)).
  { unfold get_nlist_buffer. rewrite reinterpret_ptr_plus.
    apply int64_of_bits_small. nia. }
  assert (Hf : get_forces_buffer t
               = ptr_addr (_output_buffer t)
                 + getN (m_pdata t) * (1 + _nneighs t)
                   * ptr_sizeof (_output_buffer t)).
  { unfold get_forces_buffer. rewrite Hmode; simpl.
    rewrite reinterpret_ptr_plus, Hoff.
    apply int64_of_bits_small. nia. }
  rewrite Hp, Hl, Hf. repeat split; nia.
Qed.

(** X8: the [int64_t] an accessor returns carries the 64 address bits of
    the element it names: read as unsigned it is that address modulo
    2^64; it lies in the [int64_t] range and is negative exactly when the
    address is in the upper half of the address space. *)
Theorem accessor_address_bits k t :
  let p := buffer_base t (fst (baseOffset k t)) in
  let a := ptr_addr p + snd (baseOffset k t) * ptr_sizeof p in
  accessor k t mod ADDR_MODULUS = a mod ADDR_MODULUS
  /\ - 2 ^ 63 <= accessor k t < 2 ^ 63
  /\ (accessor k t < 0 <-> 2 ^ 63 <= a mod ADDR_MODULUS).
Proof.
  cbv zeta. rewrite accessor_baseOffset, element_address_unfold.
  split; [ apply int64_of_bits_congr | ].
  split; [ apply int64_of_bits_bounds | apply int64_of_bits_negative ].
Qed.

(** X9: when the particle data changes, the position address stays, the
    neighbor and virial addresses move by the change in particle count
    times the element size of their buffer, and the forces address stays
    in every mode but [output]. *)
Theorem accessors_after_particle_change t (pd : ParticleData Scalar) :
  let t' := set_m_pdata pd t in
  let d := getN pd - getN (m_pdata t) in
  get_positions_buffer t' = get_positions_buffer t
  /\ get_nlist_buffer t'
     = int64_of_bits (get_nlist_buffer t + d * ptr_sizeof (_output_buffer t))
  /\ get_virial_buffer t'
     = int64_of_bits (get_virial_buffer t + d * ptr_sizeof (_input_buffer t))
  /\ (_force_mode t <> FORCE_MODE.output ->
      get_forces_buffer t' = get_forces_buffer t).
Proof.
  cbv zeta. split; [ reflexivity | ].
  unfold get_nlist_buffer, get_virial_buffer, get_forces_buffer; simpl.
  rewrite !reinterpret_ptr_plus, !int64_of_bits_advance.
  split; [ f_equal; ring | ]. split; [ f_equal; ring | ].
  intros Hmode. destruct (_force_mode t); try congruence; reflexivity.
Qed.

End AccessorProperties.

(** ** The accessor properties on concrete coordinators *)

(** 16-byte records in a buffer at 1048576: the forces address of
    [output] mode is 16-byte aligned. *)
Lemma accessor_aligned_witness :
  Z.divide 16 ADDR_MODULUS
  /\ Z.divide 16 1048576
  /\ Z.divide 16 (get_forces_buffer Samples.small_output).
Proof.
  assert (H64 : Z.divide 16 ADDR_MODULUS) by (exists (2 ^ 60); reflexivity).
  assert (Hbase : Z.divide 16 1048576) by (exists 65536; reflexivity).
  split; [ exact H64 | ]. split; [ exact Hbase | ].
  exact (accessor_aligned Forces Samples.small_output H64 Hbase).
Defined.

(** Moving the input buffer from 4096 to 8192 moves the virial address
    by 4096 bytes. *)
Lemma accessor_remapped_witness :
  get_virial_buffer
    (set_input_buffer (mk_pointer 8192 16)
       (set_output_buffer (mk_pointer 2097152 16) Samples.small_add))
  = int64_of_bits (get_virial_buffer Samples.small_add + (8192 - 4096)).
Proof.
  exact (proj2 (accessor_remapped Virial Samples.small_add
                  (mk_pointer 8192 16) (mk_pointer 2097152 16) eq_refl eq_refl)).
Defined.

(** No particles, K = 3, [output] mode. *)
Lemma accessors_without_particles_witness :
  get_nlist_buffer (Samples.fresh 0 3 FORCE_MODE.output)
  = get_positions_buffer (Samples.fresh 0 3 FORCE_MODE.output)
  /\ get_forces_buffer (Samples.fresh 0 3 FORCE_MODE.output)
     = get_positions_buffer (Samples.fresh 0 3 FORCE_MODE.output).
Proof.
  destruct (accessors_without_particles (Samples.fresh 0 3 FORCE_MODE.output) eq_refl)
    as (Hl & _ & Hf).
  split; [ exact Hl | exact Hf ].
Defined.

(** Two particles, no neighbors, [output] mode. *)
Lemma forces_follow_positions_without_neighbors_witness :
  get_forces_buffer (Samples.fresh 2 0 FORCE_MODE.output)
  = get_nlist_buffer (Samples.fresh 2 0 FORCE_MODE.output).
Proof.
  apply forces_follow_positions_without_neighbors.
  - apply is_uint_dec. reflexivity.
  - reflexivity.
  - reflexivity.
Defined.

(** K = UINT_MAX with two particles, and N = 2^16 with K = 2^16 - 1. *)
Lemma forces_alias_positions_on_wrap_witness :
  get_forces_buffer Samples.wrapping_output
  = get_positions_buffer Samples.wrapping_output
  /\ get_forces_buffer Samples.product_wrapping_output
     = get_positions_buffer Samples.product_wrapping_output.
Proof.
  split.
  - apply forces_alias_positions_on_wrap; [ reflexivity | vm_compute; reflexivity ].
  - apply forces_alias_positions_on_wrap; [ reflexivity | vm_compute; reflexivity ].
Defined.

(** Two particles read back from the addresses 1048576 and 1048608, and
    from 4096 and 4128. *)
Lemma particle_count_from_addresses_witness :
  ((get_nlist_buffer Samples.small_add - get_positions_buffer Samples.small_add)
     mod ADDR_MODULUS) / 16 = 2
  /\ ((get_virial_buffer Samples.small_add - get_forces_buffer Samples.small_add)
        mod ADDR_MODULUS) / 16 = 2.
Proof.
  assert (Hn : is_uint (getN (m_pdata Samples.small_add)))
    by (apply is_uint_dec; reflexivity).
  destruct (particle_count_from_addresses Samples.small_add Hn) as [Hout Hin].
  split.
  - apply Hout. unfold UINT_MODULUS; simpl; lia.
  - apply Hin; [ unfold UINT_MODULUS; simpl; lia | discriminate ].
Defined.

(** N = 2, K = 3: positions at 1048576, neighbors 32 bytes and forces 128
    bytes further. *)
Lemma output_addresses_exact_and_ordered_witness :
  get_positions_buffer Samples.small_output = 1048576
  /\ get_nlist_buffer Samples.small_output = 1048576 + 2 * 16
  /\ get_forces_buffer Samples.small_output = 1048576 + 8 * 16
  /\ get_positions_buffer Samples.small_output
     <= get_nlist_buffer Samples.small_output
     <= get_forces_buffer Samples.small_output.
Proof.
  apply (output_addresses_exact_and_ordered Samples.small_output).
  - apply fresh_wf; apply is_uint_dec; reflexivity.
  - reflexivity.
  - reflexivity.
  - simpl; lia.
  - simpl; lia.
  - reflexivity.
Defined.
